(** * Heads-up push-or-fold: strategy grid, card/index model, hand-rank
      table and solver loop

    A shallow embedding of [src/strategy.cpp] (class [Strategy]) and of the
    declarations of [src/headsup_nash.cpp], with the properties the
    specification states about them.

    Conventions of the embedding.
    - A C++ [int] is a [Z].  Signed overflow is undefined in C++, so there is
      no wrap-around to write out; every statement below is about cards in
      [1,52] and indices in [0,12], far from the limits of [int].
    - [/] and [%] on [int] truncate toward zero: [Z.quot] and [Z.rem].
    - A [double] is a primitive binary64 float.  The class [Strategy] only
      stores and returns doubles, it never computes with them; equality of
      doubles below is identity of the stored value.
    - The member [double strategy[13][13]] is a list of rows; an access
      outside the array is undefined behaviour in C++ and is [None] here.
    - A member function that writes takes the object and returns the new
      one. *)

From Stdlib Require Import ZArith List Lia.
From Stdlib Require Import Floats.PrimFloat.
From stdpp Require Import base tactics functions option list list_numbers.

Local Open Scope Z_scope.

Module Strategy.

(** ** Cards *)

(** [rank = (card-1)/4], [suit = (card-1)%4], as [get_index] computes them. *)
Definition rank (card : Z) : Z := Z.quot (card - 1) 4.
Definition suit (card : Z) : Z := Z.rem (card - 1) 4.

(** ** [Strategy::get_index] *)

Definition get_index (card1 card2 : Z) : Z * Z :=
  let v1 := Z.quot (card1 - 1) 4 in
  let v2 := Z.quot (card2 - 1) 4 in
  if v1 =? v2 then (v1, v2)
  else
    let s1 := Z.rem (card1 - 1) 4 in
    let s2 := Z.rem (card2 - 1) 4 in
    if s1 =? s2 then (Z.max v1 v2, Z.min v1 v2)
    else (Z.min v1 v2, Z.max v1 v2).

(** ** The grid

    Modelled from the spec: [strategy.h] is not among the sources, so the
    declaration of the data member [strategy] is taken from the
    specification ("a 13×13 table of push probabilities"); the bounds of the
    constructor's two loops agree with it. *)
Definition DIM : Z := 13.

Abbreviation grid := (list (list float)).

Record t : Type := Build { strategy : grid }.

(** The shape that the array type fixes: 13 rows of 13 doubles. *)
Definition wf_grid (a : grid) : Prop :=
  length a = Z.to_nat DIM ∧ Forall (λ row, length row = Z.to_nat DIM) a.

Definition wf (s : t) : Prop := wf_grid (strategy s).

Definition in_bounds (i j : Z) : bool :=
  (0 <=? i) && (i <? DIM) && (0 <=? j) && (j <? DIM).

(** [a[i][j]] as an rvalue; [None] is an access outside the array. *)
Definition load (a : grid) (i j : Z) : option float :=
  if in_bounds i j then row ← a !! Z.to_nat i; row !! Z.to_nat j else None.

(** [a[i][j] = v]; [None] is an access outside the array. *)
Definition store (a : grid) (i j : Z) (v : float) : option grid :=
  if in_bounds i j then
    row ← a !! Z.to_nat i;
    _ ← row !! Z.to_nat j;
    Some (<[Z.to_nat i := <[Z.to_nat j := v]> row]> a)
  else None.

(** [for (int k = i; k < i + n; k++) body(k)], threading the state and
    stopping at the first undefined step. *)
Fixpoint for_ {St : Type} (n : nat) (i : Z) (body : Z → St → option St) (s : St)
  : option St :=
  match n with
  | O => Some s
  | S n' => s' ← body i s; for_ n' (i + 1) body s'
  end.

Definition for_range {St : Type} (lo hi : Z) (body : Z → St → option St) (s : St)
  : option St :=
  for_ (Z.to_nat (hi - lo)) lo body s.

(** ** [Strategy::Strategy(double value)]

    [this] is the storage the object is constructed in; its contents before
    the constructor runs are indeterminate, hence arbitrary. *)
Definition ctor (this : t) (value : float) : option t :=
  Build <$>
    for_range 0 13
      (λ i a, for_range 0 13 (λ j a', store a' i j value) a)
      (strategy this).

(** ** [Strategy::get_strategy] *)
Definition get_strategy (s : t) (card1 card2 : Z) (is_index_rep : bool)
  : option float :=
  if is_index_rep then load (strategy s) card1 card2
  else
    let index := get_index card1 card2 in
    load (strategy s) (fst index) (snd index).

(** ** [Strategy::set_strategy] *)
Definition set_strategy (s : t) (card1 card2 : Z) (value : float)
    (is_index_rep : bool) : option t :=
  if is_index_rep then Build <$> store (strategy s) card1 card2 value
  else
    let index := get_index card1 card2 in
    Build <$> store (strategy s) (fst index) (snd index) value.

(** ** The 1326 starting hands and their classes

    A starting hand is an unordered pair of distinct cards; [hands] lists
    each one once, lower card first. *)
Definition hands : list (Z * Z) :=
  c1 ← seqZ 1 52; c2 ← seqZ (c1 + 1) (52 - c1); [(c1, c2)].

Definition index_of (hand : Z * Z) : Z * Z := get_index (fst hand) (snd hand).

(** The image of [get_index] on the starting hands. *)
Definition classes : list (Z * Z) := remove_dups (index_of <$> hands).

(** The starting hands that [get_index] sends to one index pair. *)
Definition fibre (ip : Z * Z) : list (Z * Z) :=
  filter (λ hand, index_of hand = ip) hands.

(** The three kinds of starting hand, read off the cards themselves. *)
Definition is_pair (hand : Z * Z) : bool :=
  rank (fst hand) =? rank (snd hand).
Definition is_suited (hand : Z * Z) : bool :=
  negb (is_pair hand) && (suit (fst hand) =? suit (snd hand)).
Definition is_unsuited (hand : Z * Z) : bool :=
  negb (is_pair hand) && negb (suit (fst hand) =? suit (snd hand)).

(** The classes all of whose hands are of one kind. *)
Definition classes_of (kind : Z * Z → bool) : list (Z * Z) :=
  filter (λ ip, forallb kind (fibre ip) = true) classes.

(** Every class of the list is the image of exactly [n] starting hands. *)
Definition all_of_size (n : nat) (l : list (Z * Z)) : bool :=
  forallb (λ ip, Nat.eqb (length (fibre ip)) n) l.

(** A grid whose 169 cells all hold [v]. *)
Definition uniform (v : float) : t :=
  Build (replicate (Z.to_nat DIM) (replicate (Z.to_nat DIM) v)).

(** Invariants of the constructor's loops.  Outer loop, on entering
    iteration [i]: the grid keeps its shape and rows [0..i-1] hold [v].
    Inner loop, on entering iteration [j] of row [i]: moreover cells
    [0..j-1] of row [i] hold [v]. *)
Definition rows_filled (v : float) (i : Z) (a : grid) : Prop :=
  wf_grid a ∧ ∀ i' j', 0 ≤ i' < i → 0 ≤ j' ≤ 12 → load a i' j' = Some v.

Definition row_filling (v : float) (i j : Z) (a : grid) : Prop :=
  rows_filled v i a ∧ ∀ j', 0 ≤ j' < j → load a i j' = Some v.

End Strategy.

(** * The hand-rank table ([headsup_nash.cpp]) *)

Module HandRanks.

(** [constexpr size_t HR_SIZE = 32487834;] *)
Definition HR_SIZE : N := 32487834.

(** [int] is the signed 32-bit type of the platforms the program is built
    for (ILP32, LP64 and LLP64 alike). *)
Definition INT_BITS : N := 32.
Definition INT_MIN : Z := - 2 ^ 31.
Definition INT_MAX : Z := 2 ^ 31 - 1.

Definition is_int (x : Z) : bool := (INT_MIN <=? x) && (x <=? INT_MAX).

(** [std::array<int, n>]: [n] elements, each an [int]. *)
Record int_array (n : N) : Type := Array {
  elems : N → Z;
  elems_int : ∀ i, (i <? n)%N = true → is_int (elems i) = true
}.
Arguments Array {n} _ _.
Arguments elems {n} _ _.
Arguments elems_int {n} _ _ _.

(** [a.size()] *)
Definition size {n : N} (a : int_array n) : N := n.

(** [sizeof(a)] in bytes *)
Definition size_bytes {n : N} (a : int_array n) : N := (n * (INT_BITS / 8))%N.

(** [a[i]]; [None] is an access outside the array. *)
Definition get {n : N} (a : int_array n) (i : N) : option Z :=
  if (i <? n)%N then Some (elems a i) else None.

(** The type of the global [std::array<int, HR_SIZE> handranks]. *)
Abbreviation handranks_t := (int_array HR_SIZE).

(** The global as the program starts: static storage is zero-initialised. *)
Definition handranks : handranks_t := Array (λ _, 0) (λ _ _, eq_refl).

(** The table as the specification words it: "a fixed-size binary blob of
    exactly 32,487,834 signed 32-bit integers". *)
Definition spec_table_elements : N := 32487834.
Definition spec_element_bits : N := 32.

End HandRanks.

(** * The equilibrium solver

    The solver loop is not among the sources: [headsup_nash.cpp] stops after
    its declarations.  This module follows section 4.4 of the specification
    step by step.  What the specification leaves open (the random source, the
    payoff arithmetic, the weights of the average) is the interface [Open]. *)

Module Solver.

Local Open Scope float_scope.

(** Modelled from the spec: the two seats, "one grid per seat (button, big
    blind)"; the solver itself is missing from the sources. *)
Inductive Seat : Type := Button | BigBlind.

(** [enum class Action {PUSH, FOLD};] *)
Inductive Action : Type := PUSH | FOLD.

(** Modelled from the spec: the configuration inputs of section 6 (small
    blind, big blind, a stack per seat, iteration count); the code that reads
    them is missing from the sources. *)
Record Config : Type := {
  small_blind : float;
  big_blind : float;
  stack : Seat → float;
  iterations : nat
}.

(** Modelled from the spec: the outcome of step 1 (Deal), a starting hand
    per seat and a board; the dealing code is missing from the sources. *)
Record Deal : Type := { hole : Seat → Z * Z; board : list Z }.

(** Modelled from the spec: the RegretAccumulator of section 3, "cumulative
    regret for PUSH and for FOLD, and cumulative strategy weight", kept per
    seat and per IndexPair; its declaration is missing from the sources. *)
Record Accumulator : Type := {
  regret_push : float;
  regret_fold : float;
  strategy_sum : float;
  weight_sum : float
}.

Abbreviation Table := (Seat → Z * Z → Accumulator).

(** Modelled from the spec: the parts of the missing solver loop that the
    specification does not fix: the seeded random source behind step 1, the
    action utilities of step 2 ("not fully specified in the available
    source"), and the weight step 5 gives to each iteration ("e.g. by
    iteration count or uniformly"). *)
Class Open (Rng : Type) : Type := {
  deal : Rng → Deal * Rng;
  utility : Config → Deal → (Seat → Z * Z → float) → Seat → Action → float;
  weight : nat → float
}.

(** Modelled from the spec: the state the missing solver loop carries from
    one iteration to the next. *)
Record State (Rng : Type) : Type := { rng : Rng; table : Table }.
Arguments rng {Rng} _.
Arguments table {Rng} _ _ _.

Definition positive_part (x : float) : float := if 0 <? x then x else 0.

(** Modelled from the spec: step 4 of the missing solver loop, regret
    matching: the push probability is the positive part of the PUSH regret
    over the sum of both positive parts, and one half when neither regret is
    positive. *)
Definition regret_matching (a : Accumulator) : float :=
  let p := positive_part (regret_push a) in
  let f := positive_part (regret_fold a) in
  if 0 <? p + f then p / (p + f) else 0.5.

(** Modelled from the spec: the instantaneous strategy of the missing solver
    loop, read off the accumulated regrets. *)
Definition current_strategy (tb : Table) : Seat → Z * Z → float :=
  λ seat ip, regret_matching (tb seat ip).

(** Modelled from the spec: steps 3 and 5 of the missing solver loop on one
    accumulator.  Each action's regret grows by its utility minus the utility
    of the mixed strategy played; the strategy played enters the cumulative
    sum with the iteration's weight. *)
Definition accumulate (w sigma u_push u_fold : float) (a : Accumulator)
  : Accumulator :=
  let u_mixed := sigma * u_push + (1 - sigma) * u_fold in
  {| regret_push := regret_push a + (u_push - u_mixed);
     regret_fold := regret_fold a + (u_fold - u_mixed);
     strategy_sum := strategy_sum a + w * sigma;
     weight_sum := weight_sum a + w |}.

(** Modelled from the spec: one iteration of the missing solver loop (steps
    1 to 5): deal, then for each seat update the accumulator of the class of
    the hand it was dealt, against the strategies in force when the
    iteration began. *)
Definition iteration {Rng : Type} {O : Open Rng} (cfg : Config) (k : nat)
    (st : State Rng) : State Rng :=
  let d := fst (deal (rng st)) in
  let sigma := current_strategy (table st) in
  {| rng := snd (deal (rng st));
     table := λ seat,
       let ip := Strategy.index_of (hole d seat) in
       <[ip := accumulate (weight k) (sigma seat ip)
                 (utility cfg d sigma seat PUSH)
                 (utility cfg d sigma seat FOLD)
                 (table st seat ip)]> (table st seat) |}.

(** Modelled from the spec: the missing solver loop, [n] iterations from
    [st]. *)
Fixpoint run {Rng : Type} {O : Open Rng} (cfg : Config) (n : nat)
    (st : State Rng) : State Rng :=
  match n with
  | O => st
  | S k => iteration cfg k (run cfg k st)
  end.

Definition zero : Accumulator :=
  {| regret_push := 0; regret_fold := 0; strategy_sum := 0; weight_sum := 0 |}.

(** Modelled from the spec: the state the missing solver starts from, the
    seeded random source and empty accumulators. *)
Definition init {Rng : Type} (seed : Rng) : State Rng :=
  {| rng := seed; table := λ _ _, zero |}.

(** Modelled from the spec: step 6 (Termination) of the missing solver, the
    grid reported for a seat: "the cumulative-strategy sum normalized by
    total accumulated weight".  Sum and weight are those of the cell, as in
    the commentary at the head of [headsup_nash.cpp]: the average is taken
    "over the number of times the decision node was reached", that is, "the
    number of times the 2 card starter hand was randomly dealt". *)
Definition report {Rng : Type} (st : State Rng) : Seat → Z * Z → float :=
  λ seat ip, strategy_sum (table st seat ip) / weight_sum (table st seat ip).

(** Modelled from the spec: the missing solver as a whole, "a pure function
    of [the configuration] plus a random seed". *)
Definition solve {Rng : Type} {O : Open Rng} (cfg : Config) (seed : Rng)
  : Seat → Z * Z → float :=
  report (run cfg (iterations cfg) (init seed)).

(** *** The time-averaged strategy, in the specification's words

    Iteration [k] starts in state [run cfg k st]; it visits, for each seat,
    the class of the hand dealt to that seat, playing the instantaneous
    strategy of that state there. *)
Definition visits {Rng : Type} {O : Open Rng} (cfg : Config) (st : State Rng)
    (seat : Seat) (ip : Z * Z) (k : nat) : bool :=
  bool_decide
    (Strategy.index_of (hole (fst (deal (rng (run cfg k st)))) seat) = ip).

Definition played {Rng : Type} {O : Open Rng} (cfg : Config) (st : State Rng)
    (seat : Seat) (ip : Z * Z) (k : nat) : float :=
  current_strategy (table (run cfg k st)) seat ip.

(** The weighted sum of the strategies played at [ip] in iterations
    [0 .. n-1], added up in the order of the iterations. *)
Fixpoint cumulative_strategy {Rng : Type} {O : Open Rng} (cfg : Config)
    (st : State Rng) (seat : Seat) (ip : Z * Z) (n : nat) : float :=
  match n with
  | O => 0
  | S k =>
      if visits cfg st seat ip k
      then cumulative_strategy cfg st seat ip k + weight k * played cfg st seat ip k
      else cumulative_strategy cfg st seat ip k
  end.

(** The weight accumulated at [ip] in iterations [0 .. n-1]. *)
Fixpoint total_weight {Rng : Type} {O : Open Rng} (cfg : Config)
    (st : State Rng) (seat : Seat) (ip : Z * Z) (n : nat) : float :=
  match n with
  | O => 0
  | S k =>
      if visits cfg st seat ip k
      then total_weight cfg st seat ip k + weight k
      else total_weight cfg st seat ip k
  end.

Definition time_average {Rng : Type} {O : Open Rng} (cfg : Config)
    (st : State Rng) (seat : Seat) (ip : Z * Z) (n : nat) : float :=
  cumulative_strategy cfg st seat ip n / total_weight cfg st seat ip n.

(** *** An instance to run

    Every iteration deals the two black aces to the button and the deuce and
    trey of clubs to the big blind; pushing pays 1, folding pays 0; all
    iterations weigh the same. *)
Definition aces_every_time : Open unit :=
  {| deal := λ g,
       ({| hole := λ seat,
             match seat with Button => (49, 52) | BigBlind => (1, 5) end%Z;
           board := [] |}, g);
     utility := λ _ _ _ _ a, match a with PUSH => 1 | FOLD => 0 end;
     weight := λ _, 1 |}.

Definition two_iterations : Config :=
  {| small_blind := 1; big_blind := 2; stack := λ _, 20; iterations := 2 |}.

End Solver.

(** * Properties of the card/index model *)

Section get_index_facts.
Import Strategy.

Lemma rank_bounds (card : Z) :
  1 ≤ card ≤ 52 → 0 ≤ Z.quot (card - 1) 4 ≤ 12.
Proof. intros H. Z.quot_rem_to_equations. lia. Qed.

Lemma suit_bounds (card : Z) :
  1 ≤ card ≤ 52 → 0 ≤ Z.rem (card - 1) 4 ≤ 3.
Proof. intros H. Z.quot_rem_to_equations. lia. Qed.

(** A card is its rank and suit: equal rank and suit mean equal cards. *)
Lemma card_eq (card1 card2 : Z) :
  rank card1 = rank card2 → suit card1 = suit card2 → card1 = card2.
Proof. unfold rank, suit. Z.quot_rem_to_equations. lia. Qed.

Lemma get_index_comm (card1 card2 : Z) :
  get_index card1 card2 = get_index card2 card1.
Proof.
  unfold get_index.
  rewrite (Z.eqb_sym (Z.quot (card2 - 1) 4)), (Z.eqb_sym (Z.rem (card2 - 1) 4)).
  destruct (Z.eqb_spec (Z.quot (card1 - 1) 4) (Z.quot (card2 - 1) 4)) as [->|_];
    [reflexivity|].
  rewrite (Z.max_comm (Z.quot (card2 - 1) 4)), (Z.min_comm (Z.quot (card2 - 1) 4)).
  reflexivity.
Qed.

Lemma get_index_bounds (card1 card2 : Z) :
  1 ≤ card1 ≤ 52 → 1 ≤ card2 ≤ 52 →
  0 ≤ fst (get_index card1 card2) ≤ 12 ∧ 0 ≤ snd (get_index card1 card2) ≤ 12.
Proof.
  intros H1%rank_bounds H2%rank_bounds. unfold get_index.
  repeat case_match; simpl; lia.
Qed.

(** The orientation the code gives to a hand of two distinct ranks: the
    higher rank comes first exactly when the two cards share a suit. *)
Lemma get_index_orientation (card1 card2 : Z) :
  rank card1 ≠ rank card2 →
  (suit card1 = suit card2 →
     fst (get_index card1 card2) > snd (get_index card1 card2)) ∧
  (suit card1 ≠ suit card2 →
     fst (get_index card1 card2) < snd (get_index card1 card2)).
Proof.
  unfold rank, suit, get_index. intros Hr.
  destruct (Z.eqb_spec (Z.quot (card1 - 1) 4) (Z.quot (card2 - 1) 4)); [done|].
  destruct (Z.eqb_spec (Z.rem (card1 - 1) 4) (Z.rem (card2 - 1) 4));
    simpl; split; intros; lia.
Qed.

Lemma elem_of_hands (card1 card2 : Z) :
  (card1, card2) ∈ hands ↔ 1 ≤ card1 < card2 ∧ card2 ≤ 52.
Proof.
  unfold hands. rewrite list_elem_of_bind. split.
  - intros (c1 & (c2 & Hin & H2%elem_of_seqZ)%list_elem_of_bind & H1%elem_of_seqZ).
    apply list_elem_of_singleton in Hin. simplify_eq. lia.
  - intros H. exists card1. split; [|apply elem_of_seqZ; lia].
    apply list_elem_of_bind. exists card2.
    split; [apply list_elem_of_singleton; reflexivity | apply elem_of_seqZ; lia].
Qed.

End get_index_facts.

(** * Properties of the grid: loads, stores and the loops over them *)

Section grid_facts.
Import Strategy.

Lemma in_bounds_spec (i j : Z) :
  in_bounds i j = true ↔ (0 ≤ i ≤ 12 ∧ 0 ≤ j ≤ 12).
Proof.
  unfold in_bounds, DIM.
  rewrite !andb_true_iff, !Z.leb_le, !Z.ltb_lt. lia.
Qed.

Lemma wf_grid_row (a : grid) (i : Z) :
  wf_grid a → 0 ≤ i ≤ 12 →
  ∃ row, a !! Z.to_nat i = Some row ∧ length row = 13%nat.
Proof.
  intros [Hlen Hrows] Hi.
  destruct (lookup_lt_is_Some_2 a (Z.to_nat i)) as [row Hrow].
  { rewrite Hlen. unfold DIM. lia. }
  exists row. split; [done|].
  rewrite Forall_forall in Hrows. apply Hrows.
  eapply list_elem_of_lookup_2, Hrow.
Qed.

Lemma load_is_Some (a : grid) (i j : Z) :
  wf_grid a → 0 ≤ i ≤ 12 → 0 ≤ j ≤ 12 → is_Some (load a i j).
Proof.
  intros Hwf Hi Hj. unfold load.
  rewrite (proj2 (in_bounds_spec i j)) by done.
  destruct (wf_grid_row a i Hwf Hi) as (row & -> & Hlen). simpl.
  apply lookup_lt_is_Some_2. lia.
Qed.

Lemma store_is_Some (a : grid) (i j : Z) (v : float) :
  wf_grid a → 0 ≤ i ≤ 12 → 0 ≤ j ≤ 12 → is_Some (store a i j v).
Proof.
  intros Hwf Hi Hj. unfold store.
  rewrite (proj2 (in_bounds_spec i j)) by done.
  destruct (wf_grid_row a i Hwf Hi) as (row & -> & Hlen). simpl.
  destruct (lookup_lt_is_Some_2 row (Z.to_nat j)) as [x ->]; [lia|].
  simpl. eauto.
Qed.

(** What a successful store did. *)
Lemma store_Some (a a' : grid) (i j : Z) (v : float) :
  store a i j v = Some a' →
  (0 ≤ i ≤ 12 ∧ 0 ≤ j ≤ 12) ∧
  ∃ row, a !! Z.to_nat i = Some row ∧ (Z.to_nat j < length row)%nat ∧
         a' = <[Z.to_nat i := <[Z.to_nat j := v]> row]> a.
Proof.
  unfold store. destruct (in_bounds i j) eqn:Hb; [|done].
  apply in_bounds_spec in Hb.
  destruct (a !! Z.to_nat i) as [row|] eqn:Hrow; [|done]. simpl.
  destruct (row !! Z.to_nat j) as [x|] eqn:Hx; [|done]. simpl.
  intros [= <-]. split; [done|]. exists row.
  split_and!; [done| |done]. apply lookup_lt_is_Some. eauto.
Qed.

Lemma store_wf (a a' : grid) (i j : Z) (v : float) :
  wf_grid a → store a i j v = Some a' → wf_grid a'.
Proof.
  intros [Hlen Hrows] (_ & row & Hrow & _ & ->)%store_Some. split.
  - by rewrite length_insert.
  - apply Forall_insert; [done|]. simpl. rewrite length_insert.
    rewrite Forall_forall in Hrows. apply Hrows.
    eapply list_elem_of_lookup_2, Hrow.
Qed.

Lemma load_store_eq (a a' : grid) (i j : Z) (v : float) :
  store a i j v = Some a' → load a' i j = Some v.
Proof.
  intros (Hb & row & Hrow & Hj & ->)%store_Some. unfold load.
  rewrite (proj2 (in_bounds_spec i j)) by done.
  rewrite list_lookup_insert_eq by (apply lookup_lt_is_Some; eauto).
  simpl. by apply list_lookup_insert_eq.
Qed.

Lemma load_store_ne (a a' : grid) (i j i' j' : Z) (v : float) :
  store a i j v = Some a' → i ≠ i' ∨ j ≠ j' →
  load a' i' j' = load a i' j'.
Proof.
  intros (Hb & row & Hrow & Hj & ->)%store_Some Hne. unfold load.
  destruct (in_bounds i' j') eqn:Hb'; [|done].
  apply in_bounds_spec in Hb'.
  destruct (decide (i = i')) as [<-|Hi].
  - rewrite list_lookup_insert_eq by (apply lookup_lt_is_Some; eauto).
    rewrite Hrow. simpl. apply list_lookup_insert_ne. lia.
  - rewrite list_lookup_insert_ne by lia. done.
Qed.

(** Loop invariants: if [P] holds on entry and every iteration both is
    defined and re-establishes [P] for the next counter, the loop is
    defined and [P] holds on exit. *)
Lemma for_invariant {St : Type} (P : Z → St → Prop) (body : Z → St → option St)
    (n : nat) (i : Z) (s : St) :
  P i s →
  (∀ k s0, i ≤ k < i + Z.of_nat n → P k s0 →
     ∃ s1, body k s0 = Some s1 ∧ P (k + 1) s1) →
  ∃ s', for_ n i body s = Some s' ∧ P (i + Z.of_nat n) s'.
Proof.
  revert i s. induction n as [|n IH]; intros i s Hinit Hstep.
  - exists s. simpl. by rewrite Z.add_0_r.
  - destruct (Hstep i s) as (s1 & Hs1 & HP1); [lia|done|].
    destruct (IH (i + 1) s1) as (s' & Hs' & HP'); [done| |].
    { intros k s0 Hk. apply Hstep. lia. }
    exists s'. simpl. rewrite Hs1. simpl. split; [done|].
    by replace (i + Z.of_nat (S n)) with (i + 1 + Z.of_nat n) by lia.
Qed.

Lemma for_range_invariant {St : Type} (P : Z → St → Prop)
    (body : Z → St → option St) (lo hi : Z) (s : St) :
  lo ≤ hi → P lo s →
  (∀ k s0, lo ≤ k < hi → P k s0 → ∃ s1, body k s0 = Some s1 ∧ P (k + 1) s1) →
  ∃ s', for_range lo hi body s = Some s' ∧ P hi s'.
Proof.
  intros Hle Hinit Hstep. unfold for_range.
  destruct (for_invariant P body (Z.to_nat (hi - lo)) lo s) as (s' & Hs' & HP);
    [done| |].
  { intros k s0 Hk. apply Hstep. lia. }
  exists s'. split; [done|].
  by replace (lo + Z.of_nat (Z.to_nat (hi - lo))) with hi in HP by lia.
Qed.

(** The inner loop of the constructor fills row [i] and leaves the rows
    above it alone. *)
Lemma ctor_inner (v : float) (i : Z) (a : grid) :
  0 ≤ i ≤ 12 → rows_filled v i a →
  ∃ a', for_range 0 13 (λ j a0, store a0 i j v) a = Some a' ∧
        rows_filled v (i + 1) a'.
Proof.
  intros Hi Hrows.
  destruct (for_range_invariant (row_filling v i) (λ j a0, store a0 i j v)
              0 13 a) as (a' & Ha' & [[Hwf Habove] Hrow]); [lia| | |].
  - split; [done|]. intros j' ?. lia.
  - intros j a0 Hj [[Hwf Habove] Hrow].
    destruct (store_is_Some a0 i j v) as [a1 Ha1]; [done|lia|lia|].
    exists a1. split; [done|]. split; [split|].
    + eapply store_wf; eauto.
    + intros i' j' Hi' Hj'.
      rewrite (load_store_ne _ _ _ _ _ _ _ Ha1) by lia. by apply Habove.
    + intros j' Hj'. destruct (decide (j' = j)) as [->|Hne].
      * eapply load_store_eq, Ha1.
      * rewrite (load_store_ne _ _ _ _ _ _ _ Ha1) by lia. apply Hrow. lia.
  - exists a'. split; [done|]. split; [done|].
    intros i' j' Hi' Hj'. destruct (decide (i' = i)) as [->|Hne].
    + apply Hrow. lia.
    + apply Habove; lia.
Qed.

Lemma ctor_filled (this : t) (v : float) :
  wf this →
  ∃ s, ctor this v = Some s ∧ rows_filled v 13 (strategy s).
Proof.
  intros Hwf. unfold ctor.
  destruct (for_range_invariant (rows_filled v)
              (λ i a, for_range 0 13 (λ j a', store a' i j v) a)
              0 13 (strategy this)) as (a' & -> & Hfilled); [lia| | |].
  - split; [done|]. intros i' j' ?. lia.
  - intros i a0 Hi Hrows. apply ctor_inner; [lia|done].
  - by exists (Build a').
Qed.

(** The shape of the grid is an invariant of the class: the constructor
    establishes it and [set_strategy] keeps it. *)
Lemma ctor_wf (this s : t) (v : float) :
  wf this → ctor this v = Some s → wf s.
Proof.
  intros Hwf Hs. destruct (ctor_filled this v Hwf) as (s' & Hs' & Hshape & _).
  by simplify_eq.
Qed.

Lemma set_strategy_wf (s s' : t) (card1 card2 : Z) (v : float) (rep : bool) :
  wf s → set_strategy s card1 card2 v rep = Some s' → wf s'.
Proof.
  intros Hwf. unfold set_strategy.
  destruct rep; intros (a' & Ha' & ->)%fmap_Some; eapply store_wf; eauto.
Qed.

(** A write leaves every other cell as it was. *)
Lemma set_strategy_other (s s' : t) (i j i' j' : Z) (v : float) :
  set_strategy s i j v true = Some s' → i ≠ i' ∨ j ≠ j' →
  get_strategy s' i' j' true = get_strategy s i' j' true.
Proof.
  unfold set_strategy, get_strategy.
  intros (a' & Ha' & ->)%fmap_Some Hne. eapply load_store_ne; eauto.
Qed.

Lemma uniform_wf (v : float) : wf (uniform v).
Proof.
  split.
  - apply length_replicate.
  - apply Forall_replicate, length_replicate.
Qed.

End grid_facts.

(** * The claims about [Strategy] *)

(** C1.  The specification, and the commentary at the head of
    [headsup_nash.cpp], put the lower rank first for a suited hand and the
    higher rank first for an unsuited one.  [Strategy::get_index] does the
    opposite.  The commentary's own example, the ace of spades with the three
    of hearts (cards 52 and 7, unsuited), is documented as [(12, 1)] and comes
    out as [(1, 12)]; the suited ace and three of clubs (cards 49 and 5) come
    out as [(12, 1)]. *)
Theorem get_index_orientation_reversed :
  (Strategy.rank 7 ≠ Strategy.rank 52 ∧ Strategy.suit 7 ≠ Strategy.suit 52 ∧
   Strategy.get_index 7 52 = (1, 12)) ∧
  (Strategy.rank 5 ≠ Strategy.rank 49 ∧ Strategy.suit 5 = Strategy.suit 49 ∧
   Strategy.get_index 5 49 = (12, 1)).
Proof. by vm_compute. Qed.

(** C2.  [hands] is a duplicate-free list of the 1326 unordered pairs of
    distinct cards; [get_index] sends it onto 169 index pairs, all inside the
    13×13 grid; 13 of them
    receive pocket pairs only, 6 each; 78 receive suited hands only, 4 each;
    78 receive unsuited hands only, 12 each; and 13·6 + 78·4 + 78·12 = 1326. *)
Theorem get_index_classes :
  ((∀ card1 card2,
      (card1, card2) ∈ Strategy.hands ↔ 1 ≤ card1 < card2 ∧ card2 ≤ 52) ∧
   NoDup Strategy.hands ∧ length Strategy.hands = 1326%nat) ∧
  (length Strategy.classes = 169%nat ∧
   forallb (λ ip, Strategy.in_bounds (fst ip) (snd ip)) Strategy.classes = true) ∧
  (length (Strategy.classes_of Strategy.is_pair) = 13%nat ∧
   Strategy.all_of_size 6 (Strategy.classes_of Strategy.is_pair) = true) ∧
  (length (Strategy.classes_of Strategy.is_suited) = 78%nat ∧
   Strategy.all_of_size 4 (Strategy.classes_of Strategy.is_suited) = true) ∧
  (length (Strategy.classes_of Strategy.is_unsuited) = 78%nat ∧
   Strategy.all_of_size 12 (Strategy.classes_of Strategy.is_unsuited) = true) ∧
  (13 * 6 + 78 * 4 + 78 * 12 = 1326)%nat.
Proof.
  split; [split; [|split]|].
  - apply elem_of_hands.
  - apply (bool_decide_unpack _). vm_compute. exact I.
  - vm_compute. reflexivity.
  - split; [split; vm_compute; reflexivity|].
    split; [split; vm_compute; reflexivity|].
    split; [split; vm_compute; reflexivity|].
    split; [split; vm_compute; reflexivity|].
    reflexivity.
Qed.

(** C3.  On a hand of two distinct cards the accessor in the specific
    representation returns what the accessor in the index representation
    returns at the derived index pair, and that is a cell of the grid. *)
Theorem get_strategy_representations_agree
    (s : Strategy.t) (card1 card2 i1 i2 : Z) :
  Strategy.wf s → 1 ≤ card1 ≤ 52 → 1 ≤ card2 ≤ 52 → card1 ≠ card2 →
  Strategy.get_index card1 card2 = (i1, i2) →
  Strategy.get_strategy s card1 card2 false = Strategy.get_strategy s i1 i2 true ∧
  is_Some (Strategy.get_strategy s card1 card2 false).
Proof.
  intros Hwf H1 H2 _ Hidx. unfold Strategy.get_strategy. rewrite Hidx. simpl.
  split; [done|].
  destruct (get_index_bounds card1 card2 H1 H2) as [Hi Hj].
  rewrite Hidx in Hi, Hj. by apply load_is_Some.
Qed.

Lemma get_strategy_representations_agree_witness :
  Strategy.get_strategy (Strategy.uniform 1) 7 52 false
    = Strategy.get_strategy (Strategy.uniform 1) 1 12 true ∧
  is_Some (Strategy.get_strategy (Strategy.uniform 1) 7 52 false).
Proof.
  apply (get_strategy_representations_agree (Strategy.uniform 1) 7 52 1 12);
    [apply uniform_wf | lia | lia | lia | reflexivity].
Defined.

(** C4.  Whatever the storage held before, the constructor returns, and
    afterwards every cell [(i, j)] of the grid reads as the initial value. *)
Theorem ctor_applies_value (this : Strategy.t) (v : float) (i j : Z) :
  Strategy.wf this → 0 ≤ i ≤ 12 → 0 ≤ j ≤ 12 →
  ∃ s, Strategy.ctor this v = Some s ∧
       Strategy.get_strategy s i j true = Some v.
Proof.
  intros Hwf Hi Hj.
  destruct (ctor_filled this v Hwf) as (s & Hs & _ & Hfilled).
  exists s. split; [done|]. simpl. apply Hfilled; lia.
Qed.

Lemma ctor_applies_value_witness :
  ∃ s, Strategy.ctor (Strategy.uniform 0) 1 = Some s ∧
       Strategy.get_strategy s 12 12 true = Some 1%float.
Proof.
  apply (ctor_applies_value (Strategy.uniform 0) 1 12 12);
    [apply uniform_wf | lia | lia].
Defined.

(** C5.  The index pair of a starting hand does not depend on the order in
    which its two cards are given. *)
Theorem get_index_order_independent (card1 card2 : Z) :
  1 ≤ card1 ≤ 52 → 1 ≤ card2 ≤ 52 → card1 ≠ card2 →
  Strategy.get_index card1 card2 = Strategy.get_index card2 card1.
Proof. intros _ _ _. apply get_index_comm. Qed.

Lemma get_index_order_independent_witness :
  Strategy.get_index 7 52 = Strategy.get_index 52 7.
Proof. apply (get_index_order_independent 7 52); lia. Defined.

(** C9.  A write followed by a read of the same hand returns the value
    written, in the index representation and in the specific one. *)
Theorem set_then_get (s : Strategy.t) (v : float) :
  Strategy.wf s →
  (∀ i j, 0 ≤ i ≤ 12 → 0 ≤ j ≤ 12 →
     ∃ s', Strategy.set_strategy s i j v true = Some s' ∧
           Strategy.get_strategy s' i j true = Some v) ∧
  (∀ card1 card2, 1 ≤ card1 ≤ 52 → 1 ≤ card2 ≤ 52 → card1 ≠ card2 →
     ∃ s', Strategy.set_strategy s card1 card2 v false = Some s' ∧
           Strategy.get_strategy s' card1 card2 false = Some v).
Proof.
  intros Hwf. split.
  - intros i j Hi Hj. unfold Strategy.set_strategy, Strategy.get_strategy.
    destruct (store_is_Some (Strategy.strategy s) i j v Hwf Hi Hj) as [a' Ha'].
    exists (Strategy.Build a'). rewrite Ha'. split; [done|]. simpl.
    eapply load_store_eq, Ha'.
  - intros card1 card2 H1 H2 _.
    unfold Strategy.set_strategy, Strategy.get_strategy.
    destruct (get_index_bounds card1 card2 H1 H2) as [Hi Hj].
    destruct (store_is_Some (Strategy.strategy s) _ _ v Hwf Hi Hj) as [a' Ha'].
    exists (Strategy.Build a'). rewrite Ha'. split; [done|]. simpl.
    eapply load_store_eq, Ha'.
Qed.

Lemma set_then_get_witness :
  (∃ s', Strategy.set_strategy (Strategy.uniform 1) 12 1 0.25 true = Some s' ∧
         Strategy.get_strategy s' 12 1 true = Some 0.25%float) ∧
  (∃ s', Strategy.set_strategy (Strategy.uniform 1) 7 52 0.25 false = Some s' ∧
         Strategy.get_strategy s' 7 52 false = Some 0.25%float).
Proof.
  destruct (set_then_get (Strategy.uniform 1) 0.25 (uniform_wf 1)) as [Hi Hs].
  split; [apply Hi; lia | apply Hs; lia].
Defined.

(** C10.  The index pair of two cards of the deck has both coordinates in
    [0,12], so a read or a write in the specific representation falls inside
    the 13×13 array: both are defined. *)
Theorem specific_access_in_bounds
    (s : Strategy.t) (v : float) (card1 card2 : Z) :
  Strategy.wf s → 1 ≤ card1 ≤ 52 → 1 ≤ card2 ≤ 52 → card1 ≠ card2 →
  (0 ≤ fst (Strategy.get_index card1 card2) ≤ 12 ∧
   0 ≤ snd (Strategy.get_index card1 card2) ≤ 12) ∧
  Strategy.in_bounds (fst (Strategy.get_index card1 card2))
                     (snd (Strategy.get_index card1 card2)) = true ∧
  is_Some (Strategy.get_strategy s card1 card2 false) ∧
  is_Some (Strategy.set_strategy s card1 card2 v false).
Proof.
  intros Hwf H1 H2 _.
  destruct (get_index_bounds card1 card2 H1 H2) as [Hi Hj].
  split; [done|]. split; [by apply in_bounds_spec|]. split.
  - by apply load_is_Some.
  - unfold Strategy.set_strategy.
    destruct (store_is_Some (Strategy.strategy s) _ _ v Hwf Hi Hj) as [a' ->].
    by eexists.
Qed.

Lemma specific_access_in_bounds_witness :
  (0 ≤ fst (Strategy.get_index 7 52) ≤ 12 ∧
   0 ≤ snd (Strategy.get_index 7 52) ≤ 12) ∧
  Strategy.in_bounds (fst (Strategy.get_index 7 52))
                     (snd (Strategy.get_index 7 52)) = true ∧
  is_Some (Strategy.get_strategy (Strategy.uniform 1) 7 52 false) ∧
  is_Some (Strategy.set_strategy (Strategy.uniform 1) 7 52 0.25 false).
Proof.
  apply (specific_access_in_bounds (Strategy.uniform 1) 0.25 7 52);
    [apply uniform_wf | lia | lia | lia].
Defined.

(** * The hand-rank table *)

(** C8.  Any value of the type of the global [handranks] has exactly
    32,487,834 elements, indexed [0 .. 32,487,833], each a signed 32-bit
    integer, 4 bytes apiece; count and width are the ones the specification
    gives for the table file. *)
Theorem handranks_shape (h : HandRanks.handranks_t) :
  HandRanks.size h = 32487834%N ∧
  (∀ i, is_Some (HandRanks.get h i) ↔ (i < 32487834)%N) ∧
  (∀ i x, HandRanks.get h i = Some x → - 2 ^ 31 ≤ x < 2 ^ 31) ∧
  HandRanks.size_bytes h = (4 * 32487834)%N ∧
  HandRanks.HR_SIZE = HandRanks.spec_table_elements ∧
  HandRanks.INT_BITS = HandRanks.spec_element_bits.
Proof.
  split; [reflexivity|]. split; [|split; [|by split]].
  - intros i. unfold HandRanks.get.
    destruct (N.ltb_spec i HandRanks.HR_SIZE) as [Hlt|Hge].
    + split; [done|by eexists].
    + split; [by intros [x ?]|]. intros Hlt. unfold HandRanks.HR_SIZE in Hge. lia.
  - intros i x. unfold HandRanks.get.
    destruct (i <? HandRanks.HR_SIZE)%N eqn:Hlt; [|done].
    intros [= <-]. pose proof (HandRanks.elems_int h i Hlt) as Hint.
    unfold HandRanks.is_int, HandRanks.INT_MIN, HandRanks.INT_MAX in Hint.
    apply andb_true_iff in Hint as [?%Z.leb_le ?%Z.leb_le]. lia.
Qed.

(** * The solver loop *)

Section solver_facts.
Import Solver.
Context {Rng : Type} {O : Open Rng}.

(** One iteration touches, for each seat, the accumulator of the class it
    visits, and no other. *)
Lemma table_iteration (cfg : Config) (st : State Rng) (k : nat)
    (seat : Seat) (ip : Z * Z) :
  table (run cfg (S k) st) seat ip =
    if visits cfg st seat ip k
    then accumulate (weight k) (played cfg st seat ip k)
           (utility cfg (fst (deal (rng (run cfg k st))))
              (current_strategy (table (run cfg k st))) seat PUSH)
           (utility cfg (fst (deal (rng (run cfg k st))))
              (current_strategy (table (run cfg k st))) seat FOLD)
           (table (run cfg k st) seat ip)
    else table (run cfg k st) seat ip.
Proof.
  unfold visits, played. simpl. case_bool_decide as Hip.
  - rewrite <- Hip. by rewrite fn_lookup_insert.
  - by rewrite fn_lookup_insert_ne.
Qed.

(** Step 5 as a loop invariant: after [n] iterations the accumulator holds
    the weighted sum of the strategies played so far, and their weight. *)
Lemma strategy_sum_run (cfg : Config) (seed : Rng) (seat : Seat)
    (ip : Z * Z) (n : nat) :
  strategy_sum (table (run cfg n (init seed)) seat ip)
    = cumulative_strategy cfg (init seed) seat ip n.
Proof.
  induction n as [|k IH]; [reflexivity|].
  rewrite table_iteration. cbn [cumulative_strategy].
  destruct (visits cfg (init seed) seat ip k); [|done].
  cbn [accumulate strategy_sum]. by rewrite IH.
Qed.

Lemma weight_sum_run (cfg : Config) (seed : Rng) (seat : Seat)
    (ip : Z * Z) (n : nat) :
  weight_sum (table (run cfg n (init seed)) seat ip)
    = total_weight cfg (init seed) seat ip n.
Proof.
  induction n as [|k IH]; [reflexivity|].
  rewrite table_iteration. cbn [total_weight].
  destruct (visits cfg (init seed) seat ip k); [|done].
  cbn [accumulate weight_sum]. by rewrite IH.
Qed.

Lemma solve_time_average (cfg : Config) (seed : Rng) (seat : Seat)
    (ip : Z * Z) :
  solve cfg seed seat ip
    = time_average cfg (init seed) seat ip (iterations cfg).
Proof.
  unfold solve, report, time_average.
  by rewrite strategy_sum_run, weight_sum_run.
Qed.

End solver_facts.

(** C6.  After the configured number of iterations the grid reported for a
    seat is, cell by cell, the weighted sum of the strategies played at that
    cell divided by the weight accumulated there.  It is not the strategy of
    the last iteration: when pushing always pays more than folding, two
    iterations report 0.75 for pocket aces (one half played first, then one)
    while the strategy in force at the end is 1. *)
Theorem reported_grid_is_time_average :
  (∀ (Rng : Type) (O : Solver.Open Rng) (cfg : Solver.Config) (seed : Rng)
     (seat : Solver.Seat) (ip : Z * Z),
     Solver.solve cfg seed seat ip
       = (Solver.cumulative_strategy cfg (Solver.init seed) seat ip
            (Solver.iterations cfg)
          / Solver.total_weight cfg (Solver.init seed) seat ip
              (Solver.iterations cfg))%float) ∧
  (Solver.solve (O := Solver.aces_every_time) Solver.two_iterations tt
     Solver.Button (12, 12) = 0.75%float ∧
   Solver.current_strategy
     (Solver.table
        (Solver.run (O := Solver.aces_every_time) Solver.two_iterations 2
           (Solver.init tt)))
     Solver.Button (12, 12) = 1%float ∧
   Solver.solve (O := Solver.aces_every_time) Solver.two_iterations tt
     Solver.Button (12, 12)
   ≠ Solver.current_strategy
       (Solver.table
          (Solver.run (O := Solver.aces_every_time) Solver.two_iterations 2
             (Solver.init tt)))
       Solver.Button (12, 12)).
Proof.
  split.
  - intros Rng O cfg seed seat ip. apply solve_time_average.
  - assert (Solver.solve (O := Solver.aces_every_time) Solver.two_iterations tt
              Solver.Button (12, 12) = 0.75%float) as Hsolve
      by (vm_compute; reflexivity).
    assert (Solver.current_strategy
              (Solver.table (Solver.run (O := Solver.aces_every_time)
                               Solver.two_iterations 2 (Solver.init tt)))
              Solver.Button (12, 12) = 1%float) as Hlast
      by (vm_compute; reflexivity).
    split; [done|]. split; [done|].
    rewrite Hsolve, Hlast. intros Heq.
    apply (f_equal (λ x, PrimFloat.ltb x 1)) in Heq. vm_compute in Heq. done.
Qed.

(** * Further properties of [Strategy] *)

Section more_grid_facts.
Import Strategy.

(** A card built from a rank and a suit has that rank and that suit. *)
Lemma card_of_rank_suit (r u : Z) :
  0 ≤ u ≤ 3 → 0 ≤ r →
  Z.quot (4 * r + u + 1 - 1) 4 = r ∧ Z.rem (4 * r + u + 1 - 1) 4 = u.
Proof. intros. Z.quot_rem_to_equations. lia. Qed.

Lemma load_Some_bounds (a : grid) (i j : Z) :
  is_Some (load a i j) → 0 ≤ i ≤ 12 ∧ 0 ≤ j ≤ 12.
Proof.
  unfold load. destruct (in_bounds i j) eqn:Hb; [|by intros [? ?]].
  intros _. by apply in_bounds_spec.
Qed.

Lemma store_Some_bounds (a : grid) (i j : Z) (v : float) :
  is_Some (store a i j v) → 0 ≤ i ≤ 12 ∧ 0 ≤ j ≤ 12.
Proof. intros [a' Ha']. by apply store_Some in Ha' as [? _]. Qed.

(** The ranks of both cards are ranks of the deck exactly when both cards
    lie in [-2,52]: the division truncates toward zero, so 0, -1 and -2 have
    rank 0 like the deuces. *)
Lemma get_index_in_grid (card1 card2 : Z) :
  (0 ≤ fst (get_index card1 card2) ≤ 12 ∧ 0 ≤ snd (get_index card1 card2) ≤ 12)
  ↔ (-2 ≤ card1 ≤ 52 ∧ -2 ≤ card2 ≤ 52).
Proof.
  assert (∀ c, 0 ≤ Z.quot (c - 1) 4 ≤ 12 ↔ -2 ≤ c ≤ 52) as Hrank.
  { intros c. Z.quot_rem_to_equations. lia. }
  rewrite <- (Hrank card1), <- (Hrank card2). unfold get_index.
  repeat case_match; simpl; lia.
Qed.

(** Two grids of the right shape with the same 169 cells are the same. *)
Lemma grid_ext (a b : grid) :
  wf_grid a → wf_grid b →
  (∀ i j, 0 ≤ i ≤ 12 → 0 ≤ j ≤ 12 → load a i j = load b i j) → a = b.
Proof.
  intros Ha Hb Hload. apply list_eq. intros i.
  destruct (decide (i < 13)%nat) as [Hi|Hi].
  - destruct (wf_grid_row a (Z.of_nat i) Ha) as (ra & Hra & Hla); [lia|].
    destruct (wf_grid_row b (Z.of_nat i) Hb) as (rb & Hrb & Hlb); [lia|].
    rewrite Nat2Z.id in Hra, Hrb. rewrite Hra, Hrb. f_equal.
    apply list_eq. intros j.
    destruct (decide (j < 13)%nat) as [Hj|Hj].
    + specialize (Hload (Z.of_nat i) (Z.of_nat j)). unfold load in Hload.
      rewrite (proj2 (in_bounds_spec _ _)) in Hload by lia.
      rewrite !Nat2Z.id, Hra, Hrb in Hload. simpl in Hload. apply Hload; lia.
    + rewrite !lookup_ge_None_2; [done|lia|lia].
  - destruct Ha as [Ha _], Hb as [Hb _]. unfold DIM in *.
    rewrite !lookup_ge_None_2; [done|lia|lia].
Qed.

Lemma load_uniform (v : float) (i j : Z) :
  0 ≤ i ≤ 12 → 0 ≤ j ≤ 12 → load (strategy (uniform v)) i j = Some v.
Proof.
  intros Hi Hj. unfold load, uniform. cbn [strategy].
  rewrite (proj2 (in_bounds_spec _ _)) by done.
  rewrite lookup_replicate_2 by (unfold DIM; lia). cbn [mbind option_bind].
  apply lookup_replicate_2. unfold DIM. lia.
Qed.

(** Whether a store is defined depends on the cell, not on the value. *)
Lemma store_None (a : grid) (i j : Z) (v w : float) :
  store a i j v = None → store a i j w = None.
Proof.
  unfold store. destruct (in_bounds i j); [|done].
  destruct (a !! Z.to_nat i) as [row|]; [|done]. simpl.
  by destruct (row !! Z.to_nat j).
Qed.

Lemma store_store_eq (a a1 : grid) (i j : Z) (v w : float) :
  store a i j v = Some a1 → store a1 i j w = store a i j w.
Proof.
  intros Hst. pose proof Hst as (Hb & row & Hrow & Hj & ->)%store_Some.
  unfold store. rewrite (proj2 (in_bounds_spec i j)) by done.
  rewrite list_lookup_insert_eq by (apply lookup_lt_is_Some; eauto).
  rewrite Hrow. simpl.
  rewrite list_lookup_insert_eq by done.
  destruct (lookup_lt_is_Some_2 row (Z.to_nat j) Hj) as [x ->]. simpl.
  by rewrite !list_insert_insert_eq.
Qed.

Lemma store_load_id (a : grid) (i j : Z) (v : float) :
  load a i j = Some v → store a i j v = Some a.
Proof.
  unfold load, store. destruct (in_bounds i j); [|done].
  destruct (a !! Z.to_nat i) as [row|] eqn:Hrow; [|done]. simpl.
  intros Hv. rewrite Hv. simpl. f_equal.
  rewrite (list_insert_id row) by done. by apply list_insert_id.
Qed.

End more_grid_facts.

(** * What else the code of [Strategy] guarantees *)

Section strategy_properties.
Import Strategy.

(** X1.  Two hands get the same index pair exactly when they have the same
    lower rank, the same higher rank and, unless they are pocket pairs, are
    both suited or both unsuited: the suits themselves, and the order of the
    cards, play no part. *)
Theorem get_index_same_class (c1 c2 d1 d2 : Z) :
  get_index c1 c2 = get_index d1 d2 ↔
  Z.min (rank c1) (rank c2) = Z.min (rank d1) (rank d2) ∧
  Z.max (rank c1) (rank c2) = Z.max (rank d1) (rank d2) ∧
  (rank c1 ≠ rank c2 → (suit c1 = suit c2 ↔ suit d1 = suit d2)).
Proof.
  unfold get_index, rank, suit.
  generalize (Z.quot (c1 - 1) 4) (Z.quot (c2 - 1) 4) (Z.quot (d1 - 1) 4)
    (Z.quot (d2 - 1) 4) (Z.rem (c1 - 1) 4) (Z.rem (c2 - 1) 4)
    (Z.rem (d1 - 1) 4) (Z.rem (d2 - 1) 4).
  intros v1 v2 w1 w2 s1 s2 t1 t2.
  destruct (Z.eqb_spec v1 v2), (Z.eqb_spec w1 w2), (Z.eqb_spec s1 s2),
    (Z.eqb_spec t1 t2);
    (split; [intros [= ? ?]; repeat split; intros; lia
            | intros (? & ? & ?); f_equal; lia]).
Qed.

(** X2.  The hand class can be read back from the index pair as the code
    lays it out: the two coordinates are the two ranks of the hand; on the
    diagonal the ranks are equal; first coordinate larger, the ranks differ
    and the suits agree; first coordinate smaller, the ranks differ and the
    suits differ. *)
Theorem get_index_kind (c1 c2 : Z) :
  (Z.min (fst (get_index c1 c2)) (snd (get_index c1 c2))
     = Z.min (rank c1) (rank c2) ∧
   Z.max (fst (get_index c1 c2)) (snd (get_index c1 c2))
     = Z.max (rank c1) (rank c2)) ∧
  (fst (get_index c1 c2) = snd (get_index c1 c2) ↔ rank c1 = rank c2) ∧
  (fst (get_index c1 c2) > snd (get_index c1 c2) ↔
     rank c1 ≠ rank c2 ∧ suit c1 = suit c2) ∧
  (fst (get_index c1 c2) < snd (get_index c1 c2) ↔
     rank c1 ≠ rank c2 ∧ suit c1 ≠ suit c2).
Proof.
  unfold get_index, rank, suit.
  destruct (Z.eqb_spec (Z.quot (c1 - 1) 4) (Z.quot (c2 - 1) 4));
    destruct (Z.eqb_spec (Z.rem (c1 - 1) 4) (Z.rem (c2 - 1) 4)); simpl; lia.
Qed.

(** X3.  Every cell of the 13×13 grid is the index pair of some hand of two
    distinct cards of the deck: no cell is out of reach of the specific
    representation. *)
Theorem get_index_onto_grid (i j : Z) :
  0 ≤ i ≤ 12 → 0 ≤ j ≤ 12 →
  ∃ c1 c2, 1 ≤ c1 ≤ 52 ∧ 1 ≤ c2 ≤ 52 ∧ c1 ≠ c2 ∧ get_index c1 c2 = (i, j).
Proof.
  intros Hi Hj.
  destruct (Z.lt_trichotomy i j) as [Hlt|[->|Hgt]].
  - exists (4 * i + 0 + 1), (4 * j + 1 + 1). split_and!; try lia.
    unfold get_index.
    destruct (card_of_rank_suit i 0) as [-> ->]; [lia..|].
    destruct (card_of_rank_suit j 1) as [-> ->]; [lia..|].
    destruct (Z.eqb_spec i j); [lia|]. simpl. f_equal; lia.
  - exists (4 * j + 0 + 1), (4 * j + 1 + 1). split_and!; try lia.
    unfold get_index.
    destruct (card_of_rank_suit j 0) as [-> ->]; [lia..|].
    destruct (card_of_rank_suit j 1) as [-> ->]; [lia..|].
    by rewrite Z.eqb_refl.
  - exists (4 * i + 0 + 1), (4 * j + 0 + 1). split_and!; try lia.
    unfold get_index.
    destruct (card_of_rank_suit i 0) as [-> ->]; [lia..|].
    destruct (card_of_rank_suit j 0) as [-> ->]; [lia..|].
    destruct (Z.eqb_spec i j); [lia|]. simpl. f_equal; lia.
Qed.

Lemma get_index_onto_grid_witness :
  ∃ c1 c2, 1 ≤ c1 ≤ 52 ∧ 1 ≤ c2 ≤ 52 ∧ c1 ≠ c2 ∧ get_index c1 c2 = (12, 1).
Proof. apply (get_index_onto_grid 12 1); lia. Defined.

(** X4.  The accessors validate nothing.  In the specific representation a
    read or a write stays inside the array exactly when both arguments lie in
    [-2,52]: a card above 52 always leads outside it, and 0, -1 and -2 are
    taken for deuces because the division truncates toward zero. *)
Theorem specific_access_defined_iff (s : t) (v : float) (card1 card2 : Z) :
  wf s →
  (is_Some (get_strategy s card1 card2 false)
     ↔ -2 ≤ card1 ≤ 52 ∧ -2 ≤ card2 ≤ 52) ∧
  (is_Some (set_strategy s card1 card2 v false)
     ↔ -2 ≤ card1 ≤ 52 ∧ -2 ≤ card2 ≤ 52).
Proof.
  intros Hwf. rewrite <- get_index_in_grid.
  unfold get_strategy, set_strategy. rewrite fmap_is_Some. split; split.
  - apply load_Some_bounds.
  - intros [? ?]. by apply load_is_Some.
  - apply store_Some_bounds.
  - intros [? ?]. by apply store_is_Some.
Qed.

Lemma specific_access_defined_iff_witness :
  (is_Some (get_strategy (uniform 1) 53 1 false) ↔ -2 ≤ 53 ≤ 52 ∧ -2 ≤ 1 ≤ 52) ∧
  (is_Some (set_strategy (uniform 1) 53 1 0.25 false)
     ↔ -2 ≤ 53 ≤ 52 ∧ -2 ≤ 1 ≤ 52).
Proof.
  apply (specific_access_defined_iff (uniform 1) 0.25 53 1), uniform_wf.
Defined.

(** X5.  In the index representation a read or a write stays inside the
    array exactly when both indices lie in [0,12]. *)
Theorem index_access_defined_iff (s : t) (v : float) (i j : Z) :
  wf s →
  (is_Some (get_strategy s i j true) ↔ 0 ≤ i ≤ 12 ∧ 0 ≤ j ≤ 12) ∧
  (is_Some (set_strategy s i j v true) ↔ 0 ≤ i ≤ 12 ∧ 0 ≤ j ≤ 12).
Proof.
  intros Hwf. unfold get_strategy, set_strategy. rewrite fmap_is_Some.
  split; split.
  - apply load_Some_bounds.
  - intros [? ?]. by apply load_is_Some.
  - apply store_Some_bounds.
  - intros [? ?]. by apply store_is_Some.
Qed.

Lemma index_access_defined_iff_witness :
  (is_Some (get_strategy (uniform 1) 13 0 true) ↔ 0 ≤ 13 ≤ 12 ∧ 0 ≤ 0 ≤ 12) ∧
  (is_Some (set_strategy (uniform 1) 13 0 0.25 true)
     ↔ 0 ≤ 13 ≤ 12 ∧ 0 ≤ 0 ≤ 12).
Proof. apply (index_access_defined_iff (uniform 1) 0.25 13 0), uniform_wf. Defined.

(** X6.  A write in the index representation changes one cell: every other
    cell reads as before. *)
Theorem set_strategy_frame (s : t) (v : float) (i j i' j' : Z) :
  wf s → 0 ≤ i ≤ 12 → 0 ≤ j ≤ 12 → i ≠ i' ∨ j ≠ j' →
  ∃ s', set_strategy s i j v true = Some s' ∧
        get_strategy s' i' j' true = get_strategy s i' j' true.
Proof.
  intros Hwf Hi Hj Hne. unfold set_strategy, get_strategy.
  destruct (store_is_Some (strategy s) i j v Hwf Hi Hj) as [a' Ha'].
  exists (Build a'). rewrite Ha'. split; [done|]. simpl.
  eapply load_store_ne; eauto.
Qed.

Lemma set_strategy_frame_witness :
  ∃ s', set_strategy (uniform 1) 12 1 0.25 true = Some s' ∧
        get_strategy s' 1 12 true = get_strategy (uniform 1) 1 12 true.
Proof.
  apply (set_strategy_frame (uniform 1) 0.25 12 1 1 12);
    [apply uniform_wf | lia | lia | left; lia].
Defined.

(** X7.  A write in the specific representation sets the strategy of the
    whole class of the hand and of nothing else: afterwards a hand with the
    same index pair reads the value written, any other hand reads what it
    read before. *)
Theorem set_specific_writes_class (s : t) (v : float) (card1 card2 : Z) :
  wf s → 1 ≤ card1 ≤ 52 → 1 ≤ card2 ≤ 52 →
  ∃ s', set_strategy s card1 card2 v false = Some s' ∧
        ∀ d1 d2,
          get_strategy s' d1 d2 false =
            if decide (get_index d1 d2 = get_index card1 card2)
            then Some v else get_strategy s d1 d2 false.
Proof.
  intros Hwf H1 H2. unfold set_strategy, get_strategy.
  destruct (get_index_bounds card1 card2 H1 H2) as [Hi Hj].
  destruct (store_is_Some (strategy s) _ _ v Hwf Hi Hj) as [a' Ha'].
  exists (Build a'). rewrite Ha'. split; [done|]. intros d1 d2. simpl.
  case_decide as Heq.
  - rewrite Heq. eapply load_store_eq, Ha'.
  - eapply load_store_ne; [exact Ha'|].
    destruct (get_index card1 card2) as [x y], (get_index d1 d2) as [x' y'].
    simpl. destruct (decide (x = x')); [right|left]; congruence.
Qed.

Lemma set_specific_writes_class_witness :
  ∃ s', set_strategy (uniform 1) 7 52 0.25 false = Some s' ∧
        ∀ d1 d2,
          get_strategy s' d1 d2 false =
            if decide (get_index d1 d2 = get_index 7 52)
            then Some 0.25%float else get_strategy (uniform 1) d1 d2 false.
Proof.
  apply (set_specific_writes_class (uniform 1) 0.25 7 52);
    [apply uniform_wf | lia | lia].
Defined.

(** X8.  Of two writes to the same hand the second one wins: the pair has
    the effect of the second write alone, in either representation, and is
    undefined exactly when that one is. *)
Theorem set_strategy_overwrite (s : t) (v w : float) (card1 card2 : Z)
    (rep : bool) :
  (set_strategy s card1 card2 v rep ≫= λ s1, set_strategy s1 card1 card2 w rep)
    = set_strategy s card1 card2 w rep.
Proof.
  unfold set_strategy.
  destruct rep;
    match goal with
    | |- context [store ?a ?i ?j v] =>
        destruct (store a i j v) as [a1|] eqn:Hst; simpl;
          [by rewrite (store_store_eq _ _ _ _ _ w Hst)
          |by rewrite (store_None _ _ _ _ w Hst)]
    end.
Qed.

(** X9.  Writes to two different cells commute: both orders are defined and
    leave the same grid. *)
Theorem set_strategy_commute (s : t) (v w : float) (i j i' j' : Z) :
  wf s → 0 ≤ i ≤ 12 → 0 ≤ j ≤ 12 → 0 ≤ i' ≤ 12 → 0 ≤ j' ≤ 12 →
  i ≠ i' ∨ j ≠ j' →
  ∃ s',
    (set_strategy s i j v true ≫= λ s1, set_strategy s1 i' j' w true) = Some s' ∧
    (set_strategy s i' j' w true ≫= λ s1, set_strategy s1 i j v true) = Some s'.
Proof.
  intros Hwf Hi Hj Hi' Hj' Hne. unfold set_strategy.
  destruct (store_is_Some (strategy s) i j v Hwf Hi Hj) as [a1 Ha1].
  destruct (store_is_Some (strategy s) i' j' w Hwf Hi' Hj') as [b1 Hb1].
  pose proof (store_wf _ _ _ _ _ Hwf Ha1) as Hwa1.
  pose proof (store_wf _ _ _ _ _ Hwf Hb1) as Hwb1.
  destruct (store_is_Some a1 i' j' w Hwa1 Hi' Hj') as [a2 Ha2].
  destruct (store_is_Some b1 i j v Hwb1 Hi Hj) as [b2 Hb2].
  pose proof (store_wf _ _ _ _ _ Hwa1 Ha2) as Hwa2.
  pose proof (store_wf _ _ _ _ _ Hwb1 Hb2) as Hwb2.
  exists (Build a2). rewrite Ha1, Hb1. simpl. rewrite Ha2, Hb2. simpl.
  split; [done|]. do 2 f_equal. apply grid_ext; [done|done|].
  intros x y Hx Hy.
  destruct (decide (x = i ∧ y = j)) as [[-> ->]|Hxy].
  - rewrite (load_store_eq _ _ _ _ _ Hb2).
    rewrite (load_store_ne _ _ _ _ _ _ _ Ha2) by lia.
    by rewrite (load_store_eq _ _ _ _ _ Ha1).
  - rewrite (load_store_ne _ _ _ _ _ _ _ Hb2) by lia.
    destruct (decide (x = i' ∧ y = j')) as [[-> ->]|Hxy'].
    + by rewrite (load_store_eq _ _ _ _ _ Ha2), (load_store_eq _ _ _ _ _ Hb1).
    + rewrite (load_store_ne _ _ _ _ _ _ _ Ha2) by lia.
      rewrite (load_store_ne _ _ _ _ _ _ _ Ha1) by lia.
      by rewrite (load_store_ne _ _ _ _ _ _ _ Hb1) by lia.
Qed.

Lemma set_strategy_commute_witness :
  ∃ s',
    (set_strategy (uniform 1) 12 1 0.25 true
       ≫= λ s1, set_strategy s1 1 12 0.5 true) = Some s' ∧
    (set_strategy (uniform 1) 1 12 0.5 true
       ≫= λ s1, set_strategy s1 12 1 0.25 true) = Some s'.
Proof.
  apply (set_strategy_commute (uniform 1) 0.25 0.5 12 1 1 12);
    [apply uniform_wf | lia | lia | lia | lia | left; lia].
Defined.

(** X10.  The constructor leaves the grid whose 169 cells all hold the
    initial value, whatever the storage held before. *)
Theorem ctor_uniform (this : t) (v : float) :
  wf this → ctor this v = Some (uniform v).
Proof.
  intros Hwf. destruct (ctor_filled this v Hwf) as ([a] & -> & Hshape & Hcells).
  simpl in *. unfold uniform. do 2 f_equal.
  apply grid_ext; [done|apply (uniform_wf v)|].
  intros i j Hi Hj. rewrite (load_uniform v) by done. apply Hcells; lia.
Qed.

Lemma ctor_uniform_witness : ctor (uniform 0) 1 = Some (uniform 1).
Proof. apply (ctor_uniform (uniform 0) 1), uniform_wf. Defined.

(** X11.  Construction, one write and one read compose as expected: after
    [Strategy(v)] and a write of [w] for one hand, a hand of the deck reads
    [w] if it has the index pair of the hand written and [v] otherwise. *)
Theorem ctor_set_get (this : t) (v w : float) (card1 card2 d1 d2 : Z) :
  wf this → 1 ≤ card1 ≤ 52 → 1 ≤ card2 ≤ 52 → 1 ≤ d1 ≤ 52 → 1 ≤ d2 ≤ 52 →
  ∃ s0 s1,
    ctor this v = Some s0 ∧
    set_strategy s0 card1 card2 w false = Some s1 ∧
    get_strategy s1 d1 d2 false =
      Some (if decide (get_index d1 d2 = get_index card1 card2) then w else v).
Proof.
  intros Hwf Hc1 Hc2 Hd1 Hd2.
  destruct (ctor_filled this v Hwf) as (s0 & Hs0 & Hshape & Hcells).
  destruct (get_index_bounds card1 card2 Hc1 Hc2) as [Hi Hj].
  destruct (get_index_bounds d1 d2 Hd1 Hd2) as [Hi' Hj'].
  destruct (store_is_Some (strategy s0) _ _ w Hshape Hi Hj) as [a1 Ha1].
  exists s0, (Build a1). unfold set_strategy, get_strategy. rewrite Ha1.
  split; [done|]. split; [done|]. simpl. case_decide as Heq.
  - rewrite Heq. eapply load_store_eq, Ha1.
  - rewrite (load_store_ne _ _ _ _ (fst (get_index d1 d2))
               (snd (get_index d1 d2)) _ Ha1).
    + apply Hcells; lia.
    + destruct (get_index card1 card2) as [x y], (get_index d1 d2) as [x' y'].
      simpl. destruct (decide (x = x')); [right|left]; congruence.
Qed.

Lemma ctor_set_get_witness :
  ∃ s0 s1,
    ctor (uniform 0) 1 = Some s0 ∧
    set_strategy s0 7 52 0.25 false = Some s1 ∧
    get_strategy s1 52 7 false =
      Some (if decide (get_index 52 7 = get_index 7 52) then 0.25 else 1)%float.
Proof.
  apply (ctor_set_get (uniform 0) 1 0.25 7 52 52 7);
    [apply uniform_wf | lia | lia | lia | lia].
Defined.

(** X12.  Writing back the value just read changes nothing: the write is
    defined and returns the same grid. *)
Theorem set_what_was_read (s : t) (v : float) (card1 card2 : Z) (rep : bool) :
  get_strategy s card1 card2 rep = Some v →
  set_strategy s card1 card2 v rep = Some s.
Proof.
  destruct s as [a]. unfold get_strategy, set_strategy. simpl.
  destruct rep; intros Hread; by rewrite (store_load_id _ _ _ _ Hread).
Qed.

Lemma set_what_was_read_witness :
  set_strategy (uniform 1) 7 52 1 false = Some (uniform 1).
Proof. apply (set_what_was_read (uniform 1) 1 7 52 false). reflexivity. Defined.

End strategy_properties.
